(** * xsimd: type-trait map, promotion resolver and generic memory kernels

    A shallow embedding of
    - [include/xsimd/types/xsimd_traits.hpp]: the preprocessor table of
      native lane counts, [simd_traits] / [revert_simd_traits], and
      [simd_return_type];
    - [include/xsimd/arch/generic/xsimd_generic_memory.hpp]: the generic
      kernels [extract_pair], the boolean [store], the converting
      [store_aligned] / [store_unaligned], and the complex load / store
      framing.

    C++ types are values of an inductive type; a class template is a
    function on them, its partial specialisations the branches of a
    [match], and a failed [std::enable_if] (no member [type]) is [None]. *)

From Stdlib Require Import ZArith Lia.
From stdpp Require Import base decidable option list.

(* ================================================================== *)
(** * Part I. The embedding                                            *)
(* ================================================================== *)

Module Traits.

(** ** C++ types

    The fundamental types, the two complex templates named by the
    header, and the two vector templates.  [char], [signed char] and
    [unsigned char] are three distinct types in C++. *)

Inductive cpp_type : Type :=
  | cbool
  | char | signed_char | unsigned_char
  | short | unsigned_short
  | int | unsigned_int
  | long | unsigned_long
  | long_long | unsigned_long_long
  | float | double | long_double
  | std_complex (T : cpp_type)                      (* std::complex<T> *)
  | xtl_xcomplex (T1 T2 : cpp_type) (i3ec : bool)   (* xtl::xcomplex<T1, T2, i3ec> *)
  | batch (T : cpp_type) (N : N)                    (* batch<T, N> *)
  | batch_bool (T : cpp_type) (N : N).              (* batch_bool<T, N> *)

#[global] Instance cpp_type_eq_dec : EqDecision cpp_type.
Proof. solve_decision. Defined.

(** The fixed-width typedefs of [<cstdint>], as the LP64 platforms
    xsimd targets (Linux x86-64, AArch64) declare them. *)
Abbreviation int8_t := signed_char (only parsing).
Abbreviation uint8_t := unsigned_char (only parsing).
Abbreviation int32_t := int (only parsing).
Abbreviation int64_t := long (only parsing).

(** [std::is_same<T1, T2>::value] *)
Definition is_same (T1 T2 : cpp_type) : bool := bool_decide (T1 = T2).

(** ** Build configuration

    The macros the header tests but does not define: the two
    instruction-set levels, the version constants they are compared
    with, and the xtl feature flag.  All are integers of the
    preprocessor (an undefined macro reads as 0). *)

Record build : Type := {
  XSIMD_X86_INSTR_SET : Z;
  XSIMD_ARM_INSTR_SET : Z;
  XSIMD_X86_SSE2_VERSION : Z;
  XSIMD_X86_AVX_VERSION : Z;
  XSIMD_X86_AVX512_VERSION : Z;
  XSIMD_ARM7_NEON_VERSION : Z;
  XSIMD_ARM8_64_NEON_VERSION : Z;
  XSIMD_ENABLE_XTL_COMPLEX : bool
}.

(** ** Width macros (lines 16-47)

    [None] is "not defined".  The three [#undef] lines clear
    [XSIMD_BATCH_FLOAT_SIZE] and [XSIMD_BATCH_DOUBLE_SIZE]; the
    [#if]/[#elif] chain defines one column of the table; the second
    [#if] defines the double width on 64-bit NEON. *)

Record width_macros : Type := {
  XSIMD_BATCH_INT8_SIZE : option N;
  XSIMD_BATCH_INT32_SIZE : option N;
  XSIMD_BATCH_INT64_SIZE : option N;
  XSIMD_BATCH_FLOAT_SIZE : option N;
  XSIMD_BATCH_DOUBLE_SIZE : option N
}.

Definition no_width : width_macros :=
  {| XSIMD_BATCH_INT8_SIZE := None; XSIMD_BATCH_INT32_SIZE := None;
     XSIMD_BATCH_INT64_SIZE := None; XSIMD_BATCH_FLOAT_SIZE := None;
     XSIMD_BATCH_DOUBLE_SIZE := None |}.

Definition width_chain (cfg : build) : width_macros :=
  if (XSIMD_X86_INSTR_SET cfg >=? XSIMD_X86_AVX512_VERSION cfg)%Z then
    {| XSIMD_BATCH_INT8_SIZE := Some 64%N; XSIMD_BATCH_INT32_SIZE := Some 16%N;
       XSIMD_BATCH_INT64_SIZE := Some 8%N; XSIMD_BATCH_FLOAT_SIZE := Some 16%N;
       XSIMD_BATCH_DOUBLE_SIZE := Some 8%N |}
  else if (XSIMD_X86_INSTR_SET cfg >=? XSIMD_X86_AVX_VERSION cfg)%Z then
    {| XSIMD_BATCH_INT8_SIZE := Some 32%N; XSIMD_BATCH_INT32_SIZE := Some 8%N;
       XSIMD_BATCH_INT64_SIZE := Some 4%N; XSIMD_BATCH_FLOAT_SIZE := Some 8%N;
       XSIMD_BATCH_DOUBLE_SIZE := Some 4%N |}
  else if (XSIMD_X86_INSTR_SET cfg >=? XSIMD_X86_SSE2_VERSION cfg)%Z then
    {| XSIMD_BATCH_INT8_SIZE := Some 16%N; XSIMD_BATCH_INT32_SIZE := Some 4%N;
       XSIMD_BATCH_INT64_SIZE := Some 2%N; XSIMD_BATCH_FLOAT_SIZE := Some 4%N;
       XSIMD_BATCH_DOUBLE_SIZE := Some 2%N |}
  else if (XSIMD_ARM_INSTR_SET cfg >=? XSIMD_ARM7_NEON_VERSION cfg)%Z then
    {| XSIMD_BATCH_INT8_SIZE := Some 16%N; XSIMD_BATCH_INT32_SIZE := Some 4%N;
       XSIMD_BATCH_INT64_SIZE := Some 2%N; XSIMD_BATCH_FLOAT_SIZE := Some 4%N;
       XSIMD_BATCH_DOUBLE_SIZE := None |}
  else no_width.

Definition macros (cfg : build) : width_macros :=
  let m := width_chain cfg in
  if (XSIMD_ARM_INSTR_SET cfg >=? XSIMD_ARM8_64_NEON_VERSION cfg)%Z then
    {| XSIMD_BATCH_INT8_SIZE := XSIMD_BATCH_INT8_SIZE m;
       XSIMD_BATCH_INT32_SIZE := XSIMD_BATCH_INT32_SIZE m;
       XSIMD_BATCH_INT64_SIZE := XSIMD_BATCH_INT64_SIZE m;
       XSIMD_BATCH_FLOAT_SIZE := XSIMD_BATCH_FLOAT_SIZE m;
       XSIMD_BATCH_DOUBLE_SIZE := Some 2%N |}
  else m.

(** ** [simd_traits] and [revert_simd_traits] (lines 52-232) *)

(** The members of [simd_traits<T>]. *)
Record simd_traits_members : Type := {
  type : cpp_type;
  bool_type : cpp_type;
  size : N
}.

(** The members of [revert_simd_traits<V>]. *)
Record revert_simd_traits_members : Type := {
  revert_type : cpp_type;
  revert_size : N
}.

(** The primary template: the identity trait of width 1. *)
Definition simd_traits_primary (T : cpp_type) : simd_traits_members :=
  {| type := T; bool_type := cbool; size := 1%N |}.

(** Modelled from the spec: [simd_batch_traits<batch<T, N>>::batch_bool_type]
    and [batch<T, N>::size] are declared by the batch headers, which are
    not part of these sources.  The spec's data model has [size ==
    type::size] with a batch holding exactly its declared number of
    lanes, and [bool_type] the bool companion of [type] at the same
    width. *)
Definition simd_traits_batch (T : cpp_type) (n : N) : simd_traits_members :=
  {| type := batch T n; bool_type := batch_bool T n; size := n |}.

(** A specialisation written inside [#ifdef guard], whose body uses the
    macro [width]: present when both are defined, and the primary
    template applies otherwise. *)
Definition specialised (guard width : option N) (T : cpp_type)
  : simd_traits_members :=
  match guard, width with
  | Some _, Some n => simd_traits_batch T n
  | _, _ => simd_traits_primary T
  end.

Definition simd_traits (cfg : build) (T : cpp_type) : simd_traits_members :=
  let m := macros cfg in
  match T with
  | int8_t => specialised (XSIMD_BATCH_FLOAT_SIZE m) (XSIMD_BATCH_INT8_SIZE m) T
  | uint8_t => specialised (XSIMD_BATCH_FLOAT_SIZE m) (XSIMD_BATCH_INT8_SIZE m) T
  | int32_t => specialised (XSIMD_BATCH_FLOAT_SIZE m) (XSIMD_BATCH_INT32_SIZE m) T
  | int64_t => specialised (XSIMD_BATCH_FLOAT_SIZE m) (XSIMD_BATCH_INT64_SIZE m) T
  | float => specialised (XSIMD_BATCH_FLOAT_SIZE m) (XSIMD_BATCH_FLOAT_SIZE m) T
  | std_complex float =>
      specialised (XSIMD_BATCH_FLOAT_SIZE m) (XSIMD_BATCH_FLOAT_SIZE m) T
  | xtl_xcomplex float float _ =>
      if XSIMD_ENABLE_XTL_COMPLEX cfg
      then specialised (XSIMD_BATCH_FLOAT_SIZE m) (XSIMD_BATCH_FLOAT_SIZE m) T
      else simd_traits_primary T
  | double => specialised (XSIMD_BATCH_DOUBLE_SIZE m) (XSIMD_BATCH_DOUBLE_SIZE m) T
  | std_complex double =>
      specialised (XSIMD_BATCH_DOUBLE_SIZE m) (XSIMD_BATCH_DOUBLE_SIZE m) T
  | xtl_xcomplex double double _ =>
      if XSIMD_ENABLE_XTL_COMPLEX cfg
      then specialised (XSIMD_BATCH_DOUBLE_SIZE m) (XSIMD_BATCH_DOUBLE_SIZE m) T
      else simd_traits_primary T
  | _ => simd_traits_primary T
  end.

(** The primary template of [revert_simd_traits]. *)
Definition revert_primary (cfg : build) (V : cpp_type)
  : revert_simd_traits_members :=
  {| revert_type := V; revert_size := size (simd_traits cfg V) |}.

(** A specialisation [revert_simd_traits<batch<T, width>>] inside
    [#ifdef guard]: it matches [batch<T, n>] only at [n = width]. *)
Definition reverted (cfg : build) (guard width : option N)
    (T : cpp_type) (n : N) : revert_simd_traits_members :=
  match guard, width with
  | Some _, Some w =>
      if (n =? w)%N
      then {| revert_type := T; revert_size := size (simd_traits cfg T) |}
      else revert_primary cfg (batch T n)
  | _, _ => revert_primary cfg (batch T n)
  end.

Definition revert_simd_traits (cfg : build) (V : cpp_type)
  : revert_simd_traits_members :=
  let m := macros cfg in
  match V with
  | batch int8_t n =>
      reverted cfg (XSIMD_BATCH_FLOAT_SIZE m) (XSIMD_BATCH_INT8_SIZE m) int8_t n
  | batch uint8_t n =>
      reverted cfg (XSIMD_BATCH_FLOAT_SIZE m) (XSIMD_BATCH_INT8_SIZE m) uint8_t n
  | batch int32_t n =>
      reverted cfg (XSIMD_BATCH_FLOAT_SIZE m) (XSIMD_BATCH_INT32_SIZE m) int32_t n
  | batch int64_t n =>
      reverted cfg (XSIMD_BATCH_FLOAT_SIZE m) (XSIMD_BATCH_INT64_SIZE m) int64_t n
  | batch float n =>
      reverted cfg (XSIMD_BATCH_FLOAT_SIZE m) (XSIMD_BATCH_FLOAT_SIZE m) float n
  | batch (std_complex float) n =>
      reverted cfg (XSIMD_BATCH_FLOAT_SIZE m) (XSIMD_BATCH_FLOAT_SIZE m)
               (std_complex float) n
  | batch (xtl_xcomplex float float i3ec) n =>
      if XSIMD_ENABLE_XTL_COMPLEX cfg
      then reverted cfg (XSIMD_BATCH_FLOAT_SIZE m) (XSIMD_BATCH_FLOAT_SIZE m)
                    (xtl_xcomplex float float i3ec) n
      else revert_primary cfg V
  | batch double n =>
      reverted cfg (XSIMD_BATCH_DOUBLE_SIZE m) (XSIMD_BATCH_DOUBLE_SIZE m) double n
  | batch (std_complex double) n =>
      reverted cfg (XSIMD_BATCH_DOUBLE_SIZE m) (XSIMD_BATCH_DOUBLE_SIZE m)
               (std_complex double) n
  | batch (xtl_xcomplex double double i3ec) n =>
      if XSIMD_ENABLE_XTL_COMPLEX cfg
      then reverted cfg (XSIMD_BATCH_DOUBLE_SIZE m) (XSIMD_BATCH_DOUBLE_SIZE m)
                    (xtl_xcomplex double double i3ec) n
      else revert_primary cfg V
  | _ => revert_primary cfg V
  end.

Definition simd_type (cfg : build) (T : cpp_type) : cpp_type :=
  type (simd_traits cfg T).

Definition simd_bool_type (cfg : build) (T : cpp_type) : cpp_type :=
  bool_type (simd_traits cfg T).

Definition revert_simd_type (cfg : build) (V : cpp_type) : cpp_type :=
  revert_type (revert_simd_traits cfg V).

(** ** [is_batch_bool], [is_batch_complex] (lines 288-317) *)

Definition is_batch_bool (V : cpp_type) : bool :=
  match V with
  | batch_bool _ _ => true
  | _ => false
  end.

Definition is_batch_complex (cfg : build) (V : cpp_type) : bool :=
  match V with
  | batch (std_complex _) _ => true
  | batch (xtl_xcomplex T1 T2 _) _ =>
      XSIMD_ENABLE_XTL_COMPLEX cfg && is_same T1 T2
  | _ => false
  end.

(** ** [simd_return_type] (lines 238-282) *)

(** Modelled from the spec: [detail::is_complex] is declared by a utility
    header that is not part of these sources.  The spec's promotion rule
    lists "complex" among the admissible first operands; the cases are
    those [is_batch_complex] above has for the element type:
    [std::complex<T>], and [xtl::xcomplex<T, T, i3ec>] when the xtl flag
    is set. *)
Definition is_complex (cfg : build) (T : cpp_type) : bool :=
  match T with
  | std_complex _ => true
  | xtl_xcomplex T1 T2 _ => XSIMD_ENABLE_XTL_COMPLEX cfg && is_same T1 T2
  | _ => false
  end.

Definition simd_condition (cfg : build) (T1 T2 : cpp_type) : bool :=
  is_same T1 T2 ||
  is_same T1 float ||
  is_same T1 double ||
  is_same T1 int64_t ||
  is_same T1 int32_t ||
  is_same T1 char ||
  is_same T1 unsigned_char ||
  is_complex cfg T1.

(** [std::enable_if<B, T>]: the member [type] exists only when [B] holds. *)
Definition enable_if (B : bool) (T : cpp_type) : option cpp_type :=
  if B then Some T else None.

(** The primary template and its three partial specialisations; [None]
    is the absence of the member [type], a hard error at the point where
    the alias [simd_return_type] names it. *)
Definition simd_return_type_impl (cfg : build) (T1 T2 : cpp_type)
  : option cpp_type :=
  match T1, T2 with
  | batch T1' _, batch T2' N2 =>
      enable_if (simd_condition cfg T1' T2') (batch T2' N2)
  | batch T1' _, batch_bool T2' N2 =>
      enable_if (simd_condition cfg T1' T2') (batch_bool T2' N2)
  | batch_bool T1' _, batch_bool T2' N2 =>
      enable_if (simd_condition cfg T1' T2') (batch_bool T2' N2)
  | _, _ => enable_if (simd_condition cfg T1 T2) (simd_type cfg T2)
  end.

Definition simd_return_type (cfg : build) (T1 T2 : cpp_type)
  : option cpp_type :=
  simd_return_type_impl cfg T1 T2.

End Traits.

Module Kernel.

(** ** Batches and memory

    A [batch<T, A>] is the list of its lanes, lane 0 first; a pointer is
    the list of the cells that start at it.  A cell of a scratch buffer
    that was declared and not yet written holds an indeterminate value,
    [None]. *)

Section memory.
Context {V : Type}.

(** Modelled from the spec: the member functions
    [batch<T, A>::load_aligned] and [batch<T, A>::store_aligned] at
    the batch's own element type belong to the batch class and the
    hardware backends, which are not part of these sources.  The
    spec's data model gives a batch the layout of [size] contiguous
    values with no padding: a load reads the [size] cells at [p], a
    store writes the lanes over the cells at [p]. *)
Definition batch_load_aligned (size : nat) (mem : list V) (p : nat) : list V :=
  take size (drop p mem).

(** Modelled from the spec: [batch<T, A>::store_aligned], as above. *)
Definition batch_store_aligned (mem : list V) (p : nat) (self : list V) : list V :=
  list_inserts p self mem.
End memory.

(** ** [extract_pair] (lines 33-56) *)

Section extract_pair.
Context {T : Type}.

(** One iteration of the [for] loop, at index [j]. *)
Definition extract_pair_step (size i : nat)
    (self_buffer other_buffer concat_buffer : list (option T)) (j : nat)
  : list (option T) :=
  let concat_buffer := <[j := other_buffer !!! (i + j)]> concat_buffer in
  if j <? i
  then <[size - 1 - j := self_buffer !!! (i - 1 - j)]> concat_buffer
  else concat_buffer.

(** The first [n] iterations, [j = 0 .. n - 1], from a fresh
    [concat_buffer]. *)
Definition extract_pair_loop (size i : nat)
    (self_buffer other_buffer : list (option T)) (n : nat)
  : list (option T) :=
  fold_left (extract_pair_step size i self_buffer other_buffer)
            (seq 0 n) (replicate size None).

(** [None] is the failed [assert]; the lanes of the result are the
    cells of [concat_buffer] as the final load finds them. *)
Definition extract_pair (size : nat) (self other : list T) (i : nat)
  : option (list (option T)) :=
  if i <? size then
    let self_buffer := batch_store_aligned (replicate size None) 0 (Some <$> self) in
    let other_buffer := batch_store_aligned (replicate size None) 0 (Some <$> other) in
    let concat_buffer :=
      extract_pair_loop size i self_buffer other_buffer (size - i) in
    Some (batch_load_aligned size concat_buffer 0)
  else None.
End extract_pair.

(** ** The boolean [store] (lines 124-133) *)

Section store_bool.
Context {T : Type}.

(** [bool(x)] at the element type. *)
Variable to_bool : T -> bool.

(** The conversion [batch_type(self)] of a [batch_bool<T, A>] to its
    paired batch; it is the backend's.  A [batch_bool] is given by its
    lanes' truth values. *)
Variable batch_of_bool : list bool -> list T.

(** Cells are [option]s as in [extract_pair]: [buffer] is declared
    and then written by the store of the materialised batch. *)
Definition store (size : nat) (self : list bool) (mem : list (option bool))
  : list (option bool) :=
  let buffer :=
    batch_store_aligned (replicate size None) 0 (Some <$> batch_of_bool self) in
  fold_left (fun mem i => <[i := to_bool <$> (buffer !!! i)]> mem)
            (seq 0 size) mem.
End store_bool.

(** ** The converting [store_aligned] / [store_unaligned] (lines 136-151) *)

Section store_convert.
(** Element types, the values of each, and the conversion [std::copy]
    applies when it assigns a [T_in] to a [T_out]. *)
Context {elem : Type} `{!EqDecision elem}.
Variable val : elem -> Type.
Variable convert : forall T_in T_out : elem, val T_in -> val T_out.

(** [None] is the failed [static_assert]: the instantiation at
    [T_in = T_out] does not exist.  [buffer] holds the lanes of [self]
    after the direct store, and [std::copy] converts each on the way to
    [mem]. *)
Definition store_aligned (T_in T_out : elem)
    (mem : list (val T_out)) (self : list (val T_in))
  : option (list (val T_out)) :=
  if decide (T_in = T_out) then None
  else
    let buffer := self in
    Some (list_inserts 0 (convert T_in T_out <$> buffer) mem).

Definition store_unaligned (T_in T_out : elem)
    (mem : list (val T_out)) (self : list (val T_in))
  : option (list (val T_out)) :=
  if decide (T_in = T_out) then None
  else store_aligned T_in T_out mem self.
End store_convert.

(** ** Complex load and store (lines 160-225) *)

(** A [batch<std::complex<T>, A>] holds a real and an imaginary batch
    (the generic [swizzle] builds one from the two). *)
Record complex_batch (T : Type) : Type := {
  real : list T;
  imag : list T
}.
Arguments real {T} _.
Arguments imag {T} _.

(** The three primitives every backend with complex support supplies;
    the generic versions are static assertion failures. *)
Class complex_arch (T : Type) : Type := {
  load_complex : list T -> list T -> complex_batch T;
  complex_high : complex_batch T -> list T;
  complex_low : complex_batch T -> list T
}.

Section complex.
Context {T : Type} `{!complex_arch T}.

(** [size] is [real_batch::size]. *)
Definition load_complex_aligned (size : nat) (mem : list T) : complex_batch T :=
  let buffer := mem in
  let hi := batch_load_aligned size buffer 0 in
  let lo := batch_load_aligned size buffer (0 + size) in
  load_complex hi lo.

Definition store_complex_aligned (size : nat) (dst : list T)
    (src : complex_batch T) : list T :=
  let hi := complex_high src in
  let lo := complex_low src in
  let buffer := dst in
  let buffer := batch_store_aligned buffer 0 lo in
  batch_store_aligned buffer (0 + size) hi.
End complex.

(** An interleaving backend, for any width. *)
Section interleaved.
Context {T : Type}.

(** The even-indexed and the odd-indexed cells of an interleaved buffer. *)
Fixpoint deinterleave (m : list T) : list T * list T :=
  match m with
  | re :: im :: m' =>
      let (res, ims) := deinterleave m' in (re :: res, im :: ims)
  | _ => ([], [])
  end.

Fixpoint interleave (res ims : list T) : list T :=
  match res, ims with
  | re :: res', im :: ims' => re :: im :: interleave res' ims'
  | _, _ => []
  end.

(** Modelled from the spec: a backend's [load_complex], [complex_high]
    and [complex_low] are not part of these sources.  The spec has
    interleaved memory as a contiguous array of (real, imaginary) pairs
    and the register as two parallel real batches; reads hand the two
    halves of the buffer to the composer, and writes "perform the
    inverse", the low half being the one stored first. *)
Definition interleaved_arch : complex_arch T :=
  {| load_complex hi lo :=
       let (res, ims) := deinterleave (hi ++ lo) in
       {| real := res; imag := ims |};
     complex_high z := drop (length (real z)) (interleave (real z) (imag z));
     complex_low z := take (length (real z)) (interleave (real z) (imag z)) |}.
End interleaved.

(** ** [insert] (lines 58-71) *)

Section insert.
Context {T : Type}.

(** [index_mask::get] of the local struct, for the template argument [I]. *)
Definition index_mask_get (I : nat) (index size : nat) : bool :=
  negb (index =? I).

(** Modelled from the spec: [make_batch_bool_constant<batch<T, A>, G>()]
    is declared by the batch-constant header, which is not part of these
    sources.  The spec has it as the compile-time generated boolean mask:
    lane [i] holds [G::get(i, size)]. *)
Definition make_batch_bool_constant (size : nat) (get : nat -> nat -> bool)
  : list bool :=
  (fun i => get i size) <$> seq 0 size.

(** Modelled from the spec: [select(cond, a, b)] is the backend's
    lane blend: lane [k] is [a]'s where the mask is true and [b]'s where
    it is false. *)
Definition select (cond : list bool) (a b : list T) : list T :=
  zip_with (fun (c : bool) (ab : T * T) => if c then ab.1 else ab.2)
           cond (zip a b).

(** Modelled from the spec: the constructor [batch<T, A>(val)] broadcasts
    [val] to every lane. *)
Definition broadcast (size : nat) (val : T) : list T := replicate size val.

Definition insert (size : nat) (self : list T) (val : T) (I : nat) : list T :=
  let tmp := broadcast size val in
  select (make_batch_bool_constant size (index_mask_get I)) self tmp.
End insert.

(** ** The converting [load_aligned] / [load_unaligned] (lines 73-121) *)

(** The tag [detail::conversion_type<A, T_in, T_out>] selects. *)
Inductive conversion : Type :=
  | with_fast_conversion
  | with_slow_conversion.

Section load_convert.
Context {elem : Type} `{!EqDecision elem}.
Variable val : elem -> Type.
Variable convert : forall T_in T_out : elem, val T_in -> val T_out.

(** [batch<T, A>::size] for the architecture at hand. *)
Variable size_of : elem -> nat.

(** The backend's vectorised cast and the choice of strategy; both are
    declared outside these sources. *)
Variable fast_cast : forall T_in T_out : elem, list (val T_in) -> list (val T_out).
Variable conversion_type : elem -> elem -> conversion.

(** Modelled from the spec: [batch<T, A>::load_unaligned] reads the same
    cells as the aligned load; alignment is a precondition of the aligned
    one only. *)
Definition batch_load_unaligned {V : Type} (size : nat) (mem : list V) (p : nat)
  : list V :=
  take size (drop p mem).

Definition load_aligned_fast (T_in T_out : elem) (mem : list (val T_in))
  : option (list (option (val T_out))) :=
  Some (Some <$> fast_cast T_in T_out (batch_load_aligned (size_of T_in) mem 0)).

(** [None] is the failed [static_assert]; [std::copy] converts the
    [batch_type_out::size] cells at [mem] into the fresh [buffer]. *)
Definition load_aligned_slow (T_in T_out : elem) (mem : list (val T_in))
  : option (list (option (val T_out))) :=
  if decide (T_in = T_out) then None
  else
    let size := size_of T_out in
    let buffer :=
      list_inserts 0 ((fun x => Some (convert T_in T_out x)) <$> take size mem)
                   (replicate size None) in
    Some (batch_load_aligned size buffer 0).

Definition load_aligned (T_in T_out : elem) (mem : list (val T_in))
  : option (list (option (val T_out))) :=
  match conversion_type T_in T_out with
  | with_fast_conversion => load_aligned_fast T_in T_out mem
  | with_slow_conversion => load_aligned_slow T_in T_out mem
  end.

Definition load_unaligned_fast (T_in T_out : elem) (mem : list (val T_in))
  : option (list (option (val T_out))) :=
  Some (Some <$> fast_cast T_in T_out (batch_load_unaligned (size_of T_in) mem 0)).

Definition load_unaligned_slow (T_in T_out : elem) (mem : list (val T_in))
  : option (list (option (val T_out))) :=
  if decide (T_in = T_out) then None
  else load_aligned_slow T_in T_out mem.

Definition load_unaligned (T_in T_out : elem) (mem : list (val T_in))
  : option (list (option (val T_out))) :=
  match conversion_type T_in T_out with
  | with_fast_conversion => load_unaligned_fast T_in T_out mem
  | with_slow_conversion => load_unaligned_slow T_in T_out mem
  end.
End load_convert.

End Kernel.

(** ** Sample builds and the promotion rule as the specification words it *)

Module Spec.
Import Traits.

(** Version constants in the order the instruction-set header gives
    them, and a few builds. *)
Definition build_with (x86 arm : Z) (xtl : bool) : build :=
  {| XSIMD_X86_INSTR_SET := x86; XSIMD_ARM_INSTR_SET := arm;
     XSIMD_X86_SSE2_VERSION := 20; XSIMD_X86_AVX_VERSION := 50;
     XSIMD_X86_AVX512_VERSION := 60;
     XSIMD_ARM7_NEON_VERSION := 70; XSIMD_ARM8_64_NEON_VERSION := 82;
     XSIMD_ENABLE_XTL_COMPLEX := xtl |}.

Definition sse2_build : build := build_with 20 0 false.
Definition avx512_build : build := build_with 60 0 true.
Definition neon8_64_build : build := build_with 0 82 false.
Definition neon7_build : build := build_with 0 70 true.
Definition scalar_build : build := build_with 0 0 false.

(** No branch of either [#if] is taken. *)
Definition no_capability (cfg : build) : Prop :=
  (XSIMD_X86_INSTR_SET cfg < XSIMD_X86_AVX512_VERSION cfg)%Z /\
  (XSIMD_X86_INSTR_SET cfg < XSIMD_X86_AVX_VERSION cfg)%Z /\
  (XSIMD_X86_INSTR_SET cfg < XSIMD_X86_SSE2_VERSION cfg)%Z /\
  (XSIMD_ARM_INSTR_SET cfg < XSIMD_ARM7_NEON_VERSION cfg)%Z /\
  (XSIMD_ARM_INSTR_SET cfg < XSIMD_ARM8_64_NEON_VERSION cfg)%Z.

(** A scalar: neither a batch nor a batch_bool. *)
Definition scalar (T : cpp_type) : bool :=
  match T with
  | batch _ _ | batch_bool _ _ => false
  | _ => true
  end.

(** The scalar types with a hardware mapping in a build: one entry per
    explicit specialisation of [simd_traits] that the build compiles. *)
Definition registered (cfg : build) : list cpp_type :=
  let m := macros cfg in
  (if XSIMD_BATCH_FLOAT_SIZE m is Some _ then
     [int8_t; uint8_t; int32_t; int64_t; float; std_complex float] ++
     (if XSIMD_ENABLE_XTL_COMPLEX cfg
      then [xtl_xcomplex float float true; xtl_xcomplex float float false]
      else [])
   else []) ++
  (if XSIMD_BATCH_DOUBLE_SIZE m is Some _ then
     [double; std_complex double] ++
     (if XSIMD_ENABLE_XTL_COMPLEX cfg
      then [xtl_xcomplex double double true; xtl_xcomplex double double false]
      else [])
   else []).

(** The element type of an operand: of a batch or batch_bool its first
    template argument, of a scalar the scalar. *)
Definition element_type (T : cpp_type) : cpp_type :=
  match T with
  | batch E _ | batch_bool E _ => E
  | _ => T
  end.

(** The promotion rule on a pair of types: identical, or the first is
    one of the listed types, or complex. *)
Definition admissible (cfg : build) (A B : cpp_type) : Prop :=
  A = B \/
  A ∈ [float; double; int64_t; int32_t; char; unsigned_char] \/
  is_complex cfg A = true.

(** The pair the rule is applied to by [simd_return_type<T1, T2>]: the
    element types for the three vector-vector shapes that have a
    partial specialisation, the operand types themselves otherwise. *)
Definition compared (T1 T2 : cpp_type) : cpp_type * cpp_type :=
  match T1, T2 with
  | batch A _, batch B _ => (A, B)
  | batch A _, batch_bool B _ => (A, B)
  | batch_bool A _, batch_bool B _ => (A, B)
  | _, _ => (T1, T2)
  end.

(** The window of [size] lanes at offset [i] of the concatenation of
    [other] and [self]: lane [k] is [other]'s lane [i + k] while that
    exists, and [self]'s lane [k - (size - i)] after. *)
Definition window {T : Type} (size : nat) (self other : list T) (i : nat)
  : list (option T) :=
  (fun k => if k <? size - i then other !! (i + k) else self !! (k - (size - i)))
    <$> seq 0 size.

(** Cell [k] of [concat_buffer] after [n] iterations of the loop of
    [extract_pair]: written from [other_buffer] below [n], written from
    [self_buffer] in the top [min n i] cells, untouched in between. *)
Definition cell_after {T : Type} (size i : nat)
    (self_buffer other_buffer : list (option T)) (n k : nat) : option T :=
  if k <? n then other_buffer !!! (i + k)
  else if size - Nat.min n i <=? k then self_buffer !!! (k - (size - i))
  else None.
End Spec.

(* ================================================================== *)
(** * Part II. Properties                                              *)
(* ================================================================== *)

Module TraitsProps.
Import Traits Spec.

(** *** The width table *)

(** The table on three builds: 64 / 16 / 8 lanes on AVX-512, no double
    batch on 32-bit NEON, a double batch of 2 lanes on 64-bit NEON. *)
Example simd_traits_avx512 :
  simd_traits avx512_build int8_t = simd_traits_batch int8_t 64 /\
  simd_traits avx512_build float = simd_traits_batch float 16 /\
  simd_traits avx512_build (xtl_xcomplex double double true)
    = simd_traits_batch (xtl_xcomplex double double true) 8.
Proof. repeat split. Qed.

Example simd_traits_neon :
  simd_traits neon7_build float = simd_traits_batch float 4 /\
  simd_traits neon7_build double = simd_traits_primary double /\
  simd_traits neon8_64_build double = simd_traits_batch double 2.
Proof. repeat split. Qed.

Example revert_simd_traits_sse2 :
  revert_simd_traits sse2_build (batch int32_t 4)
    = {| revert_type := int32_t; revert_size := 4 |} /\
  revert_simd_traits sse2_build (batch int32_t 8)
    = {| revert_type := batch int32_t 8; revert_size := 1 |}.
Proof. repeat split. Qed.

Lemma is_same_true T1 T2 : is_same T1 T2 = true <-> T1 = T2.
Proof. unfold is_same. apply bool_decide_eq_true. Qed.

Lemma is_same_refl T : is_same T T = true.
Proof. by apply is_same_true. Qed.

(** Whenever the float width is defined, so are the integer widths the
    specialisations guarded by it expand: no guarded specialisation
    names an undefined macro. *)
Lemma float_width_defines_int_widths cfg :
  is_Some (XSIMD_BATCH_FLOAT_SIZE (macros cfg)) ->
  is_Some (XSIMD_BATCH_INT8_SIZE (macros cfg)) /\
  is_Some (XSIMD_BATCH_INT32_SIZE (macros cfg)) /\
  is_Some (XSIMD_BATCH_INT64_SIZE (macros cfg)).
Proof.
  unfold macros, width_chain, no_width.
  repeat case_match; simpl; intros [w Hw]; try discriminate; eauto.
Qed.

Lemma no_capability_macros cfg :
  no_capability cfg -> macros cfg = no_width.
Proof.
  intros (H1 & H2 & H3 & H4 & H5).
  unfold macros, width_chain.
  rewrite !Z.geb_leb.
  repeat (rewrite (proj2 (Z.leb_gt _ _)) by assumption).
  reflexivity.
Qed.

Lemma enable_if_is_Some B T : is_Some (enable_if B T) <-> B = true.
Proof. destruct B; simpl; split; intros H; done. Qed.

(** The condition of the promotion rule, read as a proposition. *)
Lemma simd_condition_admissible cfg A B :
  simd_condition cfg A B = true <-> admissible cfg A B.
Proof.
  unfold simd_condition, admissible.
  rewrite !orb_true_iff, !is_same_true.
  rewrite !elem_of_cons, elem_of_nil. tauto.
Qed.

(** C1.  When the element type [T1] is admissible against [T2], the
    result for batch x batch is [batch<T2, N2>] and for batch x
    batch_bool and batch_bool x batch_bool is [batch_bool<T2, N2>], at
    the declared width [N2] of the second operand whatever [N1] and the
    native widths are; and [simd_return_type<int32_t, batch<double, W>>]
    is [batch<double, W>] at every width [W]. *)
Theorem simd_return_type_declared_width cfg T1 T2 N1 N2 W :
  simd_condition cfg T1 T2 = true ->
  simd_return_type cfg (batch T1 N1) (batch T2 N2) = Some (batch T2 N2) /\
  simd_return_type cfg (batch T1 N1) (batch_bool T2 N2) = Some (batch_bool T2 N2) /\
  simd_return_type cfg (batch_bool T1 N1) (batch_bool T2 N2)
    = Some (batch_bool T2 N2) /\
  simd_return_type cfg int32_t (batch double W) = Some (batch double W).
Proof.
  intros Hadm. unfold simd_return_type. simpl. rewrite Hadm. simpl.
  repeat split.
Qed.

Lemma simd_return_type_declared_width_witness :
  simd_condition sse2_build int32_t double = true /\
  simd_return_type sse2_build (batch int32_t 4) (batch double 3)
    = Some (batch double 3) /\
  simd_return_type sse2_build int32_t (batch double 3) = Some (batch double 3).
Proof.
  pose proof (simd_return_type_declared_width
                sse2_build int32_t double 4 3 3 eq_refl) as (H1 & _ & _ & H4).
  split; [reflexivity | split; assumption].
Defined.

(** C2, as the code has it.  A batch x batch pair over one element type
    resolves at every pair of widths, equal or not, to the second
    operand's type: the first operand's width is a free parameter of the
    partial specialisation and takes no part in the result. *)
Theorem simd_return_type_same_element_any_width cfg T W1 W2 :
  simd_return_type cfg (batch T W1) (batch T W2) = Some (batch T W2).
Proof.
  unfold simd_return_type. simpl.
  unfold simd_condition. by rewrite is_same_refl.
Qed.

(** C2, counterexample.  [simd_return_type<batch<double, 2>,
    batch<double, 4>>] names a type although the widths differ. *)
Lemma simd_return_type_width_mismatch_resolves :
  (2 <> 4)%N /\
  simd_return_type sse2_build (batch double 2) (batch double 4)
    = Some (batch double 4) /\
  simd_return_type sse2_build (batch double 2) (batch double 4) <> None.
Proof. split; [discriminate | split; [reflexivity | discriminate]]. Qed.

(** *** Where the promotion rule is defined *)

Lemma simd_return_type_compared cfg T1 T2 :
  is_Some (simd_return_type cfg T1 T2) <->
  simd_condition cfg (compared T1 T2).1 (compared T1 T2).2 = true.
Proof.
  unfold simd_return_type, simd_return_type_impl, compared.
  destruct T1, T2; cbn [fst snd]; apply enable_if_is_Some.
Qed.

(** C3, as the code has it.  [simd_return_type<T1, T2>] names a type
    exactly when the rule admits the compared pair: the two element
    types for batch x batch, batch x batch_bool and batch_bool x
    batch_bool, and the operand types themselves for every other shape;
    the rule admits (A, B) when A is B, or A is one of float, double,
    int64_t, int32_t, char, unsigned char, or A is complex.  Every other
    combination has no result at all. *)
Theorem simd_return_type_defined_iff cfg T1 T2 :
  (is_Some (simd_return_type cfg T1 T2) <->
   admissible cfg (compared T1 T2).1 (compared T1 T2).2) /\
  (simd_return_type cfg T1 T2 = None <->
   ~ admissible cfg (compared T1 T2).1 (compared T1 T2).2).
Proof.
  rewrite <- simd_condition_admissible, <- simd_return_type_compared.
  split; [reflexivity |].
  rewrite <- not_eq_None_Some. split.
  - intros H Hn. by apply Hn.
  - intros H. by destruct (simd_return_type cfg T1 T2); [destruct H|].
Qed.

(** C3, counterexample.  The element types of [batch_bool<float, 4>]
    and [batch<float, 4>] are equal (and float is a listed type), yet
    [simd_return_type<batch_bool<float, 4>, batch<float, 4>>] has no
    result: this shape has no partial specialisation, and the primary
    template tests the operand [batch_bool<float, 4>] itself. *)
Lemma simd_return_type_element_rule_fails :
  admissible sse2_build (element_type (batch_bool float 4))
                        (element_type (batch float 4)) /\
  simd_return_type sse2_build (batch_bool float 4) (batch float 4) = None.
Proof. split; [by left | reflexivity]. Qed.

(** *** The trait map *)

Lemma revert_primary_scalar cfg T :
  scalar T = true -> revert_simd_traits cfg T = revert_primary cfg T.
Proof. by destruct T. Qed.

Lemma reverted_native cfg g w T :
  reverted cfg (Some g) (Some w) T w
  = {| revert_type := T; revert_size := size (simd_traits cfg T) |}.
Proof. unfold reverted. by rewrite N.eqb_refl. Qed.

(** C6.  For every scalar type [T] and every build,
    [revert_simd_traits<simd_traits<T>::type>] has [type] equal to [T]
    and [size] equal to [simd_traits<T>::size]: through the registered
    specialisations where the build has them and through the two
    primary templates where it has not. *)
Theorem revert_simd_traits_round_trip cfg T :
  scalar T = true ->
  revert_type (revert_simd_traits cfg (type (simd_traits cfg T))) = T /\
  revert_size (revert_simd_traits cfg (type (simd_traits cfg T)))
    = size (simd_traits cfg T).
Proof.
  intros Hs.
  assert (Hprim : forall U, scalar U = true ->
            revert_type (revert_simd_traits cfg U) = U /\
            revert_size (revert_simd_traits cfg U) = size (simd_traits cfg U)).
  { intros U HU. by rewrite revert_primary_scalar. }
  assert (Hspec : forall g w U,
            simd_traits cfg U = specialised g w U ->
            (forall n, revert_simd_traits cfg (batch U n) = reverted cfg g w U n) ->
            scalar U = true ->
            revert_type (revert_simd_traits cfg (type (simd_traits cfg U))) = U /\
            revert_size (revert_simd_traits cfg (type (simd_traits cfg U)))
            = size (simd_traits cfg U)).
  { intros g w U HU HR HsU.
    destruct (Hprim U HsU) as [P1 P2]. rewrite HU in P2 |- *.
    destruct g as [g|], w as [w|];
      cbn [specialised type size simd_traits_batch simd_traits_primary] in *;
      try (by split).
    rewrite HR, reverted_native. cbn [revert_type revert_size].
    by rewrite HU. }
  destruct T as [| | | | | | | | | | | | | | |U|U1 U2 b| |]; try discriminate;
    try (by apply Hprim);
    try (by eapply Hspec).
  - destruct U; try (by apply Hprim); by eapply Hspec.
  - assert (Hoff : XSIMD_ENABLE_XTL_COMPLEX cfg = false ->
              forall U, simd_traits cfg (xtl_xcomplex U U b)
                        = simd_traits_primary (xtl_xcomplex U U b)).
    { intros Hx U. unfold simd_traits. rewrite Hx. by destruct U. }
    destruct U1; try (by apply Hprim);
      destruct U2; try (by apply Hprim).
    all: destruct (XSIMD_ENABLE_XTL_COMPLEX cfg) eqn:Hx.
    all: try (rewrite (Hoff eq_refl); cbn [type simd_traits_primary];
              rewrite <- (Hoff eq_refl); by apply Hprim).
    + eapply Hspec; [unfold simd_traits; by rewrite Hx | | done].
      intros n. unfold revert_simd_traits. by rewrite Hx.
    + eapply Hspec; [unfold simd_traits; by rewrite Hx | | done].
      intros n. unfold revert_simd_traits. by rewrite Hx.
Qed.

Lemma revert_simd_traits_round_trip_witness :
  scalar float = true /\
  revert_type (revert_simd_traits sse2_build (type (simd_traits sse2_build float)))
    = float /\
  revert_size (revert_simd_traits sse2_build (type (simd_traits sse2_build float)))
    = 4%N.
Proof.
  split; [reflexivity |].
  exact (revert_simd_traits_round_trip sse2_build float eq_refl).
Defined.

Lemma no_capability_registered cfg :
  no_capability cfg -> registered cfg = [].
Proof.
  intros Hc. unfold registered. by rewrite (no_capability_macros cfg Hc).
Qed.

Lemma simd_traits_unregistered cfg T :
  (T ∉ registered cfg) -> simd_traits cfg T = simd_traits_primary T.
Proof.
  unfold registered, simd_traits, specialised.
  destruct (XSIMD_BATCH_FLOAT_SIZE (macros cfg)) as [wf|],
           (XSIMD_BATCH_DOUBLE_SIZE (macros cfg)) as [wd|],
           (XSIMD_ENABLE_XTL_COMPLEX cfg);
    intros Hn; repeat case_match; try reflexivity;
    exfalso; apply Hn; subst;
    repeat match goal with b : bool |- _ => destruct b end;
    rewrite ?elem_of_app, ?elem_of_cons; tauto.
Qed.

(** C7.  For a type [T] with no registered hardware mapping in the
    build, and for every type when the build enables no capability at
    all, [simd_traits<T>] is the identity trait: [type] is [T],
    [bool_type] is [bool] and [size] is 1.  The lookup is a total
    function, so only [size] tells a caller that [T] is not vectorised. *)
Theorem simd_traits_identity_fallback cfg T :
  (T ∉ registered cfg) \/ no_capability cfg ->
  type (simd_traits cfg T) = T /\
  bool_type (simd_traits cfg T) = cbool /\
  size (simd_traits cfg T) = 1%N.
Proof.
  intros [Hn | Hc].
  - by rewrite (simd_traits_unregistered cfg T Hn).
  - rewrite (simd_traits_unregistered cfg T); [done |].
    rewrite (no_capability_registered cfg Hc). apply not_elem_of_nil.
Qed.

Lemma simd_traits_identity_fallback_witness :
  ((short ∉ registered sse2_build) /\
   size (simd_traits sse2_build short) = 1%N) /\
  (no_capability scalar_build /\ type (simd_traits scalar_build float) = float).
Proof.
  assert (H1 : short ∉ registered sse2_build).
  { intros H. apply list_elem_of_In in H. vm_compute in H.
    intuition discriminate. }
  assert (H2 : no_capability scalar_build).
  { unfold no_capability. simpl. lia. }
  split; split; [exact H1 | | exact H2 |].
  - exact (proj2 (proj2 (simd_traits_identity_fallback
                           sse2_build short (or_introl H1)))).
  - exact (proj1 (simd_traits_identity_fallback
                    scalar_build float (or_intror H2))).
Defined.

(** The round trip is a property of scalars: a batch at the native width
    is mapped to itself by [simd_traits] and to its element type by
    [revert_simd_traits]. *)
Example revert_simd_traits_native_batch :
  revert_type (revert_simd_traits sse2_build
                 (type (simd_traits sse2_build (batch float 4)))) = float.
Proof. reflexivity. Qed.

End TraitsProps.

Module KernelProps.
Import Kernel Spec.

(** *** Scratch buffers *)

Section memory.
Context {V : Type}.
Implicit Types (b m : list V).

Lemma batch_store_fresh b m :
  length b = length m -> batch_store_aligned m 0 b = b.
Proof.
  intros Hlen. unfold batch_store_aligned.
  rewrite <- (app_nil_r m), list_inserts_0_r by done. apply app_nil_r.
Qed.

Lemma batch_load_whole m size :
  length m = size -> batch_load_aligned size m 0 = m.
Proof. intros <-. unfold batch_load_aligned. simpl. by apply take_ge. Qed.

Lemma lookup_total_Some_fmap b j : (Some <$> b) !!! j = b !! j.
Proof.
  rewrite list_lookup_total_alt, list_lookup_fmap.
  by destruct (b !! j).
Qed.
End memory.

(** *** [extract_pair]: what the loop has written after [n] iterations *)

Section extract_pair.
Context {T : Type}.
Implicit Types (self other : list T) (sb ob : list (option T)).

Lemma extract_pair_loop_S size i sb ob n :
  extract_pair_loop size i sb ob (S n)
  = extract_pair_step size i sb ob (extract_pair_loop size i sb ob n) n.
Proof.
  unfold extract_pair_loop. by rewrite seq_S, fold_left_app.
Qed.

Lemma extract_pair_step_length size i sb ob cb j :
  length (extract_pair_step size i sb ob cb j) = length cb.
Proof.
  unfold extract_pair_step. case_match; by rewrite ?length_insert.
Qed.

Lemma extract_pair_loop_length size i sb ob n :
  length (extract_pair_loop size i sb ob n) = size.
Proof.
  induction n as [|n IH].
  - apply length_replicate.
  - by rewrite extract_pair_loop_S, extract_pair_step_length.
Qed.

Lemma extract_pair_loop_lookup size i sb ob n k :
  i < size -> n <= size - i -> k < size ->
  extract_pair_loop size i sb ob n !! k = Some (cell_after size i sb ob n k).
Proof.
  intros Hi Hn Hk. induction n as [|n IH].
  - unfold extract_pair_loop, cell_after. simpl.
    rewrite lookup_replicate_2 by done.
    destruct (Nat.leb_spec (size - 0) k); [lia | done].
  - rewrite extract_pair_loop_S. unfold extract_pair_step.
    pose proof (extract_pair_loop_length size i sb ob n) as Hlen.
    specialize (IH ltac:(lia)).
    unfold cell_after in *.
    destruct (Nat.ltb_spec n i) as [Hni|Hni].
    + destruct (decide (k = size - 1 - n)) as [->|Hk1].
      * rewrite list_lookup_insert_eq by (rewrite length_insert; lia).
        destruct (Nat.ltb_spec (size - 1 - n) (S n)); [lia|].
        destruct (Nat.leb_spec (size - Nat.min (S n) i) (size - 1 - n)); [|lia].
        do 2 f_equal. lia.
      * rewrite list_lookup_insert_ne by done.
        destruct (decide (k = n)) as [->|Hk2].
        -- rewrite list_lookup_insert_eq by lia.
           destruct (Nat.ltb_spec n (S n)); [done | lia].
        -- rewrite list_lookup_insert_ne by done. rewrite IH.
           destruct (Nat.ltb_spec k n), (Nat.ltb_spec k (S n)); try lia; [done|].
           destruct (Nat.leb_spec (size - Nat.min n i) k),
                    (Nat.leb_spec (size - Nat.min (S n) i) k); try lia; done.
    + destruct (decide (k = n)) as [->|Hk2].
      * rewrite list_lookup_insert_eq by lia.
        destruct (Nat.ltb_spec n (S n)); [done | lia].
      * rewrite list_lookup_insert_ne by done. rewrite IH.
        destruct (Nat.ltb_spec k n), (Nat.ltb_spec k (S n)); try lia; [done|].
        destruct (Nat.leb_spec (size - Nat.min n i) k),
                 (Nat.leb_spec (size - Nat.min (S n) i) k); try lia; done.
Qed.

(** The lanes of the result, for batches of [size] lanes and an index
    that passes the assertion. *)
Lemma extract_pair_unfold size self other i :
  length self = size -> length other = size -> i < size ->
  extract_pair size self other i
  = Some (extract_pair_loop size i (Some <$> self) (Some <$> other) (size - i)).
Proof.
  intros Hs Ho Hi. unfold extract_pair.
  destruct (Nat.ltb_spec i size); [|lia].
  rewrite !batch_store_fresh by (by rewrite length_fmap, length_replicate).
  by rewrite batch_load_whole by apply extract_pair_loop_length.
Qed.

Lemma extract_pair_lane size self other i k :
  length self = size -> length other = size -> i < size -> k < size ->
  extract_pair size self other i ≫= (.!! k)
  = Some (if k <? size - i then other !! (i + k)
          else if size - Nat.min (size - i) i <=? k
               then self !! (k - (size - i))
               else None).
Proof.
  intros Hs Ho Hi Hk. rewrite extract_pair_unfold by done. simpl.
  rewrite extract_pair_loop_lookup by lia.
  unfold cell_after. by rewrite !lookup_total_Some_fmap.
Qed.

(** Up to the middle index the result is the window. *)
Lemma extract_pair_lower_half size self other i :
  length self = size -> length other = size -> i < size -> 2 * i <= size ->
  extract_pair size self other i = Some (window size self other i).
Proof.
  intros Hs Ho Hi Hhalf.
  pose proof (extract_pair_unfold size self other i Hs Ho Hi) as Hu.
  rewrite Hu. f_equal. apply list_eq. intros k.
  destruct (decide (k < size)) as [Hk|Hk].
  - pose proof (extract_pair_lane size self other i k Hs Ho Hi Hk) as Hl.
    rewrite Hu in Hl. simpl in Hl. rewrite Hl.
    unfold window. rewrite list_lookup_fmap, lookup_seq_lt by done. simpl.
    destruct (Nat.ltb_spec k (size - i)); [done|].
    destruct (Nat.leb_spec (size - Nat.min (size - i) i) k); [done | lia].
  - rewrite !lookup_ge_None_2; [done | |].
    + unfold window. rewrite length_fmap, length_seq. lia.
    + rewrite extract_pair_loop_length. lia.
Qed.

End extract_pair.

(** C4.  At the index past the middle the generic kernel does not
    return the window: for width 4, self = [0,1,2,3], other =
    [10,11,12,13] and i = 3 the loop runs once, writes lanes 0 and 3,
    and lanes 1 and 2 of the result are whatever the scratch buffer
    held, where the window has [13,0,1,2].  At i = 1 the result is the
    window [11,12,13,0]. *)
Theorem extract_pair_past_middle :
  extract_pair 4 [0; 1; 2; 3] [10; 11; 12; 13] 3
    = Some [Some 13; None; None; Some 2] /\
  window 4 [0; 1; 2; 3] [10; 11; 12; 13] 3
    = [Some 13; Some 0; Some 1; Some 2] /\
  extract_pair 4 [0; 1; 2; 3] [10; 11; 12; 13] 1
    = Some [Some 11; Some 12; Some 13; Some 0].
Proof. repeat split; vm_compute; reflexivity. Qed.

(** C10.  At rotation index 0 the result is [other], lane for lane,
    whatever [self] holds. *)
Theorem extract_pair_zero {T : Type} (size : nat) (self other : list T) :
  length self = size -> length other = size -> 0 < size ->
  extract_pair size self other 0 = Some (Some <$> other) /\
  forall self' : list T, length self' = size ->
    extract_pair size self' other 0 = extract_pair size self other 0.
Proof.
  assert (Hzero : forall s : list T, length s = size -> length other = size ->
            0 < size -> extract_pair size s other 0 = Some (Some <$> other)).
  { intros s Hs Ho Hpos.
    rewrite (extract_pair_lower_half size s other 0) by (done || lia).
    f_equal. unfold window. apply list_eq. intros k.
    rewrite !list_lookup_fmap.
    destruct (decide (k < size)) as [Hk|Hk].
    - rewrite lookup_seq_lt by done. simpl.
      destruct (Nat.ltb_spec k (size - 0)); [|lia].
      by destruct (other !! k) eqn:E; [|apply lookup_ge_None in E; lia].
    - rewrite lookup_seq_ge by lia. simpl.
      by rewrite lookup_ge_None_2 by lia. }
  intros Hs Ho Hpos. split; [by apply Hzero |].
  intros s' Hs'. by rewrite !Hzero.
Qed.

Lemma extract_pair_zero_witness :
  extract_pair 4 [0; 1; 2; 3] [10; 11; 12; 13] 0
    = Some [Some 10; Some 11; Some 12; Some 13] /\
  extract_pair 4 [7; 7; 7; 7] [10; 11; 12; 13] 0
    = extract_pair 4 [0; 1; 2; 3] [10; 11; 12; 13] 0.
Proof.
  destruct (extract_pair_zero 4 [0; 1; 2; 3] [10; 11; 12; 13]
              eq_refl eq_refl ltac:(lia)) as [H1 H2].
  split; [exact H1 | exact (H2 [7; 7; 7; 7] eq_refl)].
Defined.

(** *** The boolean store *)

Section store_bool.
Context {A : Type}.

(** A loop that assigns [f i] to cell [i] for [i = 0 .. n - 1]. *)
Lemma fold_insert_lookup (f : nat -> A) (n : nat) (m : list A) (k : nat) :
  n <= length m ->
  fold_left (fun m i => <[i := f i]> m) (seq 0 n) m !! k
  = if k <? n then Some (f k) else m !! k.
Proof.
  intros Hn. induction n as [|n IH].
  - done.
  - rewrite seq_S, fold_left_app. simpl.
    specialize (IH ltac:(lia)).
    assert (Hlen : length (fold_left (fun m i => <[i := f i]> m) (seq 0 n) m)
                   = length m).
    { clear. generalize 0. revert m.
      induction n as [|n IHn]; intros m s; simpl; [done|].
      by rewrite IHn, length_insert. }
    destruct (decide (k = n)) as [->|Hk].
    + rewrite list_lookup_insert_eq by lia.
      by destruct (Nat.ltb_spec n (S n)); [|lia].
    + rewrite list_lookup_insert_ne by done. rewrite IH.
      destruct (Nat.ltb_spec k n), (Nat.ltb_spec k (S n)); (done || lia).
Qed.
End store_bool.

(** C8.  When the materialised batch reads back, lane by lane through
    [bool(x)], as the predicate's truth values (a true lane any value
    that converts to [true], a false lane one that converts to
    [false]), the store writes exactly those truth values to the first
    [size] cells of [mem] and leaves the rest. *)
Theorem store_bool_lanes {T : Type} (to_bool : T -> bool)
    (batch_of_bool : list bool -> list T)
    (size : nat) (self : list bool) (mem : list (option bool)) :
  length self = size -> size <= length mem ->
  to_bool <$> batch_of_bool self = self ->
  store to_bool batch_of_bool size self mem = (Some <$> self) ++ drop size mem /\
  forall k b, self !! k = Some b ->
    store to_bool batch_of_bool size self mem !! k = Some (Some b).
Proof.
  intros Hs Hm Hrep.
  assert (Hb : length (batch_of_bool self) = size).
  { rewrite <- Hs. rewrite <- Hrep at 2. by rewrite length_fmap. }
  assert (Heq : store to_bool batch_of_bool size self mem
                = (Some <$> self) ++ drop size mem).
  { unfold store.
    rewrite batch_store_fresh by (by rewrite length_fmap, length_replicate).
    apply list_eq. intros k. rewrite fold_insert_lookup by done.
    destruct (Nat.ltb_spec k size) as [Hk|Hk].
    - rewrite lookup_app_l by (rewrite length_fmap; lia).
      rewrite lookup_total_Some_fmap, list_lookup_fmap.
      rewrite <- Hrep at 2. rewrite list_lookup_fmap.
      destruct (batch_of_bool self !! k) eqn:E; [done|].
      apply lookup_ge_None in E. lia.
    - rewrite lookup_app_r by (rewrite length_fmap; lia).
      rewrite length_fmap, Hs, lookup_drop. f_equal. lia. }
  split; [exact Heq |].
  intros k b Hk. rewrite Heq.
  rewrite lookup_app_l by (rewrite length_fmap; by eapply lookup_lt_Some).
  by rewrite list_lookup_fmap, Hk.
Qed.

(** All-ones for a true lane, as the vector compare instructions leave
    it, read back through [x != 0]. *)
Lemma store_bool_lanes_witness :
  store (fun x : Z => negb (x =? 0)%Z) (fmap (fun b : bool => if b then (-1)%Z else 0%Z))
        4 [true; false; true; true] [None; None; Some false; None; Some true]
  = [Some true; Some false; Some true; Some true; Some true].
Proof.
  exact (proj1 (store_bool_lanes
                  (fun x : Z => negb (x =? 0)%Z)
                  (fmap (fun b : bool => if b then (-1)%Z else 0%Z))
                  4 [true; false; true; true]
                  [None; None; Some false; None; Some true]
                  eq_refl ltac:(simpl; lia) eq_refl)).
Defined.

(** *** The converting stores *)

(** C9.  For [T_in] different from [T_out] the generic converting
    [store_unaligned] returns what the generic converting
    [store_aligned] returns on the same pointer and batch, namely the
    memory with the converted lanes written at [mem]; neither takes the
    alignment of [mem] into account. *)
Theorem store_unaligned_as_aligned {elem : Type} `{!EqDecision elem}
    (val : elem -> Type) (convert : forall T_in T_out, val T_in -> val T_out)
    (T_in T_out : elem) (mem : list (val T_out)) (self : list (val T_in)) :
  T_in <> T_out ->
  store_unaligned val convert T_in T_out mem self
    = store_aligned val convert T_in T_out mem self /\
  store_aligned val convert T_in T_out mem self
    = Some (list_inserts 0 (convert T_in T_out <$> self) mem).
Proof.
  intros Hne. unfold store_unaligned, store_aligned.
  by destruct (decide (T_in = T_out)).
Qed.

Lemma store_unaligned_as_aligned_witness :
  store_unaligned (fun _ : Traits.cpp_type => Z) (fun _ _ x => x)
                  Traits.int Traits.long [0; 0; 0; 0; 9]%Z [1; 2; 3; 4]%Z
  = Some [1; 2; 3; 4; 9]%Z.
Proof.
  destruct (store_unaligned_as_aligned
              (fun _ : Traits.cpp_type => Z) (fun _ _ x => x)
              Traits.int Traits.long [0; 0; 0; 0; 9]%Z [1; 2; 3; 4]%Z
              ltac:(discriminate)) as [H1 H2].
  rewrite H1. exact H2.
Defined.

(** *** Complex load and store *)

Section complex_framing.
Context {T : Type}.
Implicit Types (src dst : list T).

(** The two loads read the two halves of the buffer. *)
Lemma load_halves size src :
  length src = 2 * size ->
  batch_load_aligned size src 0 = take size src /\
  batch_load_aligned size src (0 + size) = drop size src.
Proof.
  intros Hlen. unfold batch_load_aligned. simpl. split; [done|].
  apply take_ge. rewrite length_drop. lia.
Qed.

(** Storing the first half at the pointer and the second half [size]
    cells further rebuilds the buffer. *)
Lemma store_halves size src dst :
  length src = 2 * size -> length dst = 2 * size ->
  batch_store_aligned (batch_store_aligned dst 0 (take size src))
                      (0 + size) (drop size src)
  = src.
Proof.
  intros Hs Hd. unfold batch_store_aligned. simpl.
  rewrite <- (take_drop size dst) at 1.
  rewrite list_inserts_0_r by (rewrite !length_take; lia).
  replace size with (length (take size src) + 0) at 1
    by (rewrite length_take; lia).
  rewrite list_inserts_app_r.
  rewrite <- (app_nil_r (drop size dst)).
  rewrite list_inserts_0_r by (rewrite !length_drop; lia).
  by rewrite app_nil_r, take_drop.
Qed.

Lemma deinterleave_interleave n (m : list T) :
  length m = 2 * n ->
  interleave (deinterleave m).1 (deinterleave m).2 = m /\
  length (deinterleave m).1 = n.
Proof.
  revert m. induction n as [|n IH]; intros m Hm.
  - by destruct m.
  - destruct m as [|re [|im m]]; simpl in Hm; try lia.
    destruct (IH m ltac:(lia)) as [IH1 IH2].
    simpl. destruct (deinterleave m) as [res ims]. simpl in *.
    by rewrite IH1, IH2.
Qed.

#[local] Existing Instance interleaved_arch.

(** The interleaving backend returns, as low and high halves, the two
    batches it was composed from. *)
Lemma interleaved_arch_inverse size (hi lo : list T) :
  length hi = size -> length lo = size ->
  complex_low (load_complex hi lo) = hi /\
  complex_high (load_complex hi lo) = lo.
Proof.
  intros Hh Hl.
  destruct (deinterleave_interleave size (hi ++ lo)) as [Hi Hn].
  { rewrite length_app. lia. }
  simpl. destruct (deinterleave (hi ++ lo)) as [res ims]. simpl in *.
  rewrite Hi, Hn, <- Hh.
  by rewrite take_app_length, drop_app_length.
Qed.

(** With the interleaving backend the round trip is the identity at
    every width. *)
Lemma interleaved_round_trip size src dst :
  length src = 2 * size -> length dst = 2 * size ->
  store_complex_aligned size dst (load_complex_aligned size src) = src.
Proof.
  intros Hs Hd. unfold store_complex_aligned, load_complex_aligned.
  destruct (load_halves size src Hs) as [-> ->].
  destruct (interleaved_arch_inverse size (take size src) (drop size src))
    as [-> ->].
  - rewrite length_take. lia.
  - rewrite length_drop. lia.
  - by apply store_halves.
Qed.
End complex_framing.

(** C5.  For a backend whose [complex_low] and [complex_high] give back
    the two real batches its [load_complex] composed (the first and the
    second half of the buffer, in that order), and a buffer [src] of
    [size] complex elements, storing the loaded batch writes [src] back
    cell for cell.  The buffer and the batch have the same real type, so
    no conversion takes part. *)
Theorem complex_round_trip {T : Type} `{!complex_arch T}
    (size : nat) (src dst : list T) :
  length src = 2 * size -> length dst = 2 * size ->
  complex_low (load_complex (take size src) (drop size src)) = take size src ->
  complex_high (load_complex (take size src) (drop size src)) = drop size src ->
  store_complex_aligned size dst (load_complex_aligned size src) = src.
Proof.
  intros Hs Hd Hlow Hhigh.
  unfold store_complex_aligned, load_complex_aligned.
  destruct (load_halves size src Hs) as [-> ->].
  rewrite Hlow, Hhigh. by apply store_halves.
Qed.

Lemma complex_round_trip_witness :
  @store_complex_aligned Z interleaved_arch 2 [0; 0; 0; 0]%Z
    (@load_complex_aligned Z interleaved_arch 2 [1; 2; 3; 4]%Z)
  = [1; 2; 3; 4]%Z.
Proof.
  exact (@complex_round_trip Z interleaved_arch 2 [1; 2; 3; 4]%Z [0; 0; 0; 0]%Z
           eq_refl eq_refl eq_refl eq_refl).
Defined.

End KernelProps.

(* ================================================================== *)
(** * Part III. Further properties of the trait map and the kernels    *)
(* ================================================================== *)

Module TraitsExtra.
Import Traits Spec.

(** *** The width table *)

(** Every column of the table fills one register: the float width [f] is
    4, 8 or 16, the 8-bit width is [4 f], the 32-bit width [f], the
    64-bit width [f / 2]; the double width is 2, 4 or 8. *)
Lemma macros_table cfg :
  let m := macros cfg in
  ((XSIMD_BATCH_FLOAT_SIZE m = None /\ XSIMD_BATCH_INT8_SIZE m = None /\
    XSIMD_BATCH_INT32_SIZE m = None /\ XSIMD_BATCH_INT64_SIZE m = None) \/
   (exists f h, (f = 4 \/ f = 8 \/ f = 16)%N /\ (2 * h = f)%N /\
      XSIMD_BATCH_FLOAT_SIZE m = Some f /\
      XSIMD_BATCH_INT8_SIZE m = Some (4 * f)%N /\
      XSIMD_BATCH_INT32_SIZE m = Some f /\
      XSIMD_BATCH_INT64_SIZE m = Some h)) /\
  (XSIMD_BATCH_DOUBLE_SIZE m = None \/
   exists d, (d = 2 \/ d = 4 \/ d = 8)%N /\ XSIMD_BATCH_DOUBLE_SIZE m = Some d).
Proof.
  unfold macros, width_chain, no_width.
  repeat case_match; simpl; split;
    try (left; by repeat split);
    right.
  all: try (eexists; split; [|reflexivity]; lia).
  all: try (eexists _, _; split; [|split; [|repeat split]];
            [| |reflexivity..]; lia).
Qed.

(** The shape of a trait record: the identity trait, or the batch trait at
    some width of at least two lanes. *)
Lemma simd_traits_cases cfg T :
  simd_traits cfg T = simd_traits_primary T \/
  exists n, (2 <= n)%N /\ simd_traits cfg T = simd_traits_batch T n.
Proof.
  destruct (macros_table cfg) as [Hf Hd]. cbv zeta in Hf, Hd.
  assert (Hsf : forall w U,
            (w = XSIMD_BATCH_INT8_SIZE (macros cfg) \/
             w = XSIMD_BATCH_INT32_SIZE (macros cfg) \/
             w = XSIMD_BATCH_INT64_SIZE (macros cfg) \/
             w = XSIMD_BATCH_FLOAT_SIZE (macros cfg)) ->
            specialised (XSIMD_BATCH_FLOAT_SIZE (macros cfg)) w U
              = simd_traits_primary U \/
            exists n, (2 <= n)%N /\
              specialised (XSIMD_BATCH_FLOAT_SIZE (macros cfg)) w U
                = simd_traits_batch U n).
  { intros w U Hw.
    destruct Hf as [(E1 & E2 & E3 & E4) | (f & h & Hfv & Hh & E1 & E2 & E3 & E4)].
    - rewrite E1. by left.
    - right. rewrite E1.
      destruct Hw as [-> | [-> | [-> | ->]]];
        rewrite ?E1, ?E2, ?E3, ?E4; simpl; eexists; (split; [|reflexivity]); lia. }
  assert (Hsd : forall U,
            specialised (XSIMD_BATCH_DOUBLE_SIZE (macros cfg))
                        (XSIMD_BATCH_DOUBLE_SIZE (macros cfg)) U
              = simd_traits_primary U \/
            exists n, (2 <= n)%N /\
              specialised (XSIMD_BATCH_DOUBLE_SIZE (macros cfg))
                          (XSIMD_BATCH_DOUBLE_SIZE (macros cfg)) U
                = simd_traits_batch U n).
  { intros U. destruct Hd as [E | (d & Hdv & E)]; rewrite E; [by left|].
    right. simpl. eexists; (split; [|reflexivity]); lia. }
  unfold simd_traits.
  repeat case_match; subst; try (by left); try apply Hsd; apply Hsf; tauto.
Qed.

(** X1.  A type is vectorised exactly when the build registers it: for a
    registered type the trait is the batch trait at a width of at least
    two lanes (with [size] the batch's width and [bool_type] its boolean
    companion), and for every other type it is the identity trait. *)
Theorem simd_traits_vectorised_iff_registered cfg T :
  ((T ∉ registered cfg) /\ simd_traits cfg T = simd_traits_primary T) \/
  (T ∈ registered cfg /\
   exists n, (2 <= n)%N /\ simd_traits cfg T = simd_traits_batch T n).
Proof.
  destruct (decide (T ∈ registered cfg)) as [Hin | Hnin].
  - right. split; [done|].
    destruct (simd_traits_cases cfg T) as [Hp | Hb]; [|done].
    exfalso. revert Hin Hp. unfold registered, simd_traits, specialised.
    destruct (macros_table cfg) as [Hf Hd]. cbv zeta in Hf, Hd.
    destruct Hf as [(E1 & E2 & E3 & E4) | (f & h & _ & _ & E1 & E2 & E3 & E4)];
      destruct Hd as [E5 | (d & _ & E5)];
      rewrite ?E1, ?E2, ?E3, ?E4, ?E5;
      destruct (XSIMD_ENABLE_XTL_COMPLEX cfg); simpl;
      rewrite ?elem_of_cons, ?elem_of_nil;
      intros Hin; repeat destruct Hin as [Hin | Hin]; try done;
      subst; simpl; discriminate.
  - left. split; [done|]. by apply TraitsProps.simd_traits_unregistered.
Qed.

(** X2.  In every build the integer and float batches fill the same
    register: either none of int8, uint8, int32, int64 and float is
    vectorised, or with [f] lanes of float there are [4 f] lanes of int8
    and of uint8, [f] lanes of int32 and [f / 2] lanes of int64. *)
Theorem simd_traits_register_filling cfg :
  let lanes T := size (simd_traits cfg T) in
  (lanes float = 1 /\ lanes int8_t = 1 /\ lanes uint8_t = 1 /\
   lanes int32_t = 1 /\ lanes int64_t = 1)%N \/
  ((lanes float = 4 \/ lanes float = 8 \/ lanes float = 16) /\
   lanes int8_t = 4 * lanes float /\ lanes uint8_t = 4 * lanes float /\
   lanes int32_t = lanes float /\ 2 * lanes int64_t = lanes float)%N.
Proof.
  cbv zeta. unfold simd_traits, specialised. cbv zeta.
  destruct (macros_table cfg) as [Hf _]. cbv zeta in Hf.
  destruct Hf as [(E1 & E2 & E3 & E4) | (f & h & Hfv & Hh & E1 & E2 & E3 & E4)];
    rewrite ?E1, ?E2, ?E3, ?E4; simpl.
  - by left.
  - right. repeat split; done.
Qed.

(** X3.  A complex batch has as many lanes as the batch of its real type:
    [std::complex<float>] as [float] and [std::complex<double>] as
    [double] in every build, and the two [xtl::xcomplex] types likewise
    when the xtl flag is set. *)
Theorem simd_traits_complex_width cfg i3ec :
  size (simd_traits cfg (std_complex float)) = size (simd_traits cfg float) /\
  size (simd_traits cfg (std_complex double)) = size (simd_traits cfg double) /\
  (XSIMD_ENABLE_XTL_COMPLEX cfg = true ->
   size (simd_traits cfg (xtl_xcomplex float float i3ec))
     = size (simd_traits cfg float) /\
   size (simd_traits cfg (xtl_xcomplex double double i3ec))
     = size (simd_traits cfg double)).
Proof.
  unfold simd_traits, specialised. repeat split.
  - by destruct (XSIMD_BATCH_FLOAT_SIZE (macros cfg)).
  - by destruct (XSIMD_BATCH_DOUBLE_SIZE (macros cfg)).
  - rewrite H. by destruct (XSIMD_BATCH_FLOAT_SIZE (macros cfg)).
  - rewrite H. by destruct (XSIMD_BATCH_DOUBLE_SIZE (macros cfg)).
Qed.

Lemma simd_traits_complex_width_witness :
  XSIMD_ENABLE_XTL_COMPLEX avx512_build = true /\
  size (simd_traits avx512_build (xtl_xcomplex double double true)) = 8%N.
Proof.
  split; [reflexivity|].
  exact (proj2 (proj2 (proj2 (simd_traits_complex_width avx512_build true))
                      eq_refl)).
Defined.

(** X4.  On a build below SSE2 whose ARM level is at least 32-bit NEON
    and below 64-bit NEON, float has a batch of four lanes and double has
    none: [simd_traits<double>] is the identity trait of width 1, and so
    is that of [std::complex<double>]. *)
Theorem simd_traits_neon32_double cfg :
  (XSIMD_X86_INSTR_SET cfg < XSIMD_X86_AVX512_VERSION cfg)%Z ->
  (XSIMD_X86_INSTR_SET cfg < XSIMD_X86_AVX_VERSION cfg)%Z ->
  (XSIMD_X86_INSTR_SET cfg < XSIMD_X86_SSE2_VERSION cfg)%Z ->
  (XSIMD_ARM7_NEON_VERSION cfg <= XSIMD_ARM_INSTR_SET cfg)%Z ->
  (XSIMD_ARM_INSTR_SET cfg < XSIMD_ARM8_64_NEON_VERSION cfg)%Z ->
  simd_traits cfg float = simd_traits_batch float 4 /\
  simd_traits cfg double = simd_traits_primary double /\
  simd_traits cfg (std_complex double) = simd_traits_primary (std_complex double).
Proof.
  intros H1 H2 H3 H4 H5.
  assert (Hm : macros cfg =
    {| XSIMD_BATCH_INT8_SIZE := Some 16%N; XSIMD_BATCH_INT32_SIZE := Some 4%N;
       XSIMD_BATCH_INT64_SIZE := Some 2%N; XSIMD_BATCH_FLOAT_SIZE := Some 4%N;
       XSIMD_BATCH_DOUBLE_SIZE := None |}).
  { unfold macros, width_chain. rewrite !Z.geb_leb.
    rewrite (proj2 (Z.leb_gt _ _) H1), (proj2 (Z.leb_gt _ _) H2),
            (proj2 (Z.leb_gt _ _) H3), (proj2 (Z.leb_gt _ _) H5),
            (proj2 (Z.leb_le _ _) H4).
    reflexivity. }
  unfold simd_traits. rewrite Hm. by repeat split.
Qed.

Lemma simd_traits_neon32_double_witness :
  simd_traits neon7_build float = simd_traits_batch float 4 /\
  size (simd_traits neon7_build double) = 1%N.
Proof.
  destruct (simd_traits_neon32_double neon7_build
              ltac:(simpl; lia) ltac:(simpl; lia) ltac:(simpl; lia)
              ltac:(simpl; lia) ltac:(simpl; lia)) as (H1 & H2 & _).
  split; [exact H1 | by rewrite H2].
Defined.

(** *** The two directions of the map *)

(** X5.  [simd_type] is injective on scalars: two different scalar types
    never share a vector type, in any build. *)
Theorem simd_type_injective cfg T1 T2 :
  scalar T1 = true -> scalar T2 = true -> T1 <> T2 ->
  simd_type cfg T1 <> simd_type cfg T2.
Proof.
  intros Hs1 Hs2 Hne. unfold simd_type.
  destruct (simd_traits_cases cfg T1) as [-> | (n1 & _ & ->)],
           (simd_traits_cases cfg T2) as [-> | (n2 & _ & ->)]; simpl;
    intros E; subst; try done; by simplify_eq.
Qed.

Lemma simd_type_injective_witness :
  simd_type sse2_build float <> simd_type sse2_build int32_t.
Proof.
  exact (simd_type_injective sse2_build float int32_t eq_refl eq_refl
                             ltac:(discriminate)).
Defined.

Lemma scalar_not_own_batch T n : scalar T = true -> T <> batch T n.
Proof. by destruct T. Qed.

(** A guarded inverse specialisation that does not fall back to the
    primary template was reached at the native width of a registered
    scalar. *)
Lemma reverted_hit cfg g w T n :
  simd_traits cfg T = specialised g w T -> scalar T = true ->
  revert_type (reverted cfg g w T n) <> batch T n ->
  T ∈ registered cfg /\ batch T n = simd_type cfg T /\
  reverted cfg g w T n
  = {| revert_type := T; revert_size := size (simd_traits cfg T) |}.
Proof.
  intros HU Hs. unfold reverted, simd_type.
  destruct g as [g|], w as [w|]; simpl; try done.
  destruct (N.eqb_spec n w) as [-> | Hn]; simpl; [|done].
  intros _. rewrite HU. simpl. split; [|done].
  destruct (decide (T ∈ registered cfg)) as [|Hnin]; [done|].
  apply TraitsProps.simd_traits_unregistered in Hnin.
  rewrite HU in Hnin. simpl in Hnin.
  apply (f_equal type) in Hnin. simpl in Hnin.
  symmetry in Hnin. by apply scalar_not_own_batch in Hnin.
Qed.

(** X6.  [revert_simd_traits] inverts nothing but the image of
    [simd_traits]: whenever [revert_simd_traits<V>::type] differs from
    [V], [V] is the vector type of a registered scalar [T] at its native
    width, and the members are [T] and [simd_traits<T>::size].  A batch
    at any other width, and every non-batch type, is left as it is. *)
Theorem revert_simd_traits_only_native cfg V :
  revert_type (revert_simd_traits cfg V) <> V ->
  exists T, T ∈ registered cfg /\ V = simd_type cfg T /\
    revert_simd_traits cfg V
    = {| revert_type := T; revert_size := size (simd_traits cfg T) |}.
Proof.
  assert (Hhit : forall g w T n,
            simd_traits cfg T = specialised g w T -> scalar T = true ->
            revert_simd_traits cfg (batch T n) = reverted cfg g w T n ->
            revert_type (revert_simd_traits cfg (batch T n)) <> batch T n ->
            exists T0, T0 ∈ registered cfg /\ batch T n = simd_type cfg T0 /\
              revert_simd_traits cfg (batch T n)
              = {| revert_type := T0; revert_size := size (simd_traits cfg T0) |}).
  { intros g w T n HU Hs HR Hne. rewrite HR in Hne |- *.
    exists T. by apply (reverted_hit cfg g w T n). }
  destruct V as [| | | | | | | | | | | | | | | | |T n|]; try done.
  destruct T as [| | | | | | | | | | | | | | |U|U1 U2 b| |]; try done;
    try (by eapply Hhit).
  - destruct U; try done; by eapply Hhit.
  - destruct U1; try done; destruct U2; try done;
      destruct (XSIMD_ENABLE_XTL_COMPLEX cfg) eqn:Hx;
      try (unfold revert_simd_traits; rewrite Hx; done).
    + eapply Hhit; [unfold simd_traits; by rewrite Hx | done |].
      unfold revert_simd_traits. by rewrite Hx.
    + eapply Hhit; [unfold simd_traits; by rewrite Hx | done |].
      unfold revert_simd_traits. by rewrite Hx.
Qed.

Lemma revert_simd_traits_only_native_witness :
  exists T, T ∈ registered sse2_build /\
    batch float 4 = simd_type sse2_build T /\
    revert_simd_traits sse2_build (batch float 4)
    = {| revert_type := T; revert_size := size (simd_traits sse2_build T) |}.
Proof.
  exact (revert_simd_traits_only_native sse2_build (batch float 4)
           ltac:(discriminate)).
Defined.

(** *** The promotion resolver *)

(** X7.  Whenever [simd_return_type<T1, T2>] is defined it is
    [simd_type<T2>]: the first operand decides whether there is a result
    and has no part in what the result is. *)
Theorem simd_return_type_is_simd_type cfg T1 T2 R :
  simd_return_type cfg T1 T2 = Some R -> R = simd_type cfg T2.
Proof.
  unfold simd_return_type, simd_return_type_impl, enable_if.
  destruct T1, T2; repeat case_match; intros; by simplify_eq.
Qed.

Lemma simd_return_type_is_simd_type_witness :
  batch double 2 = simd_type sse2_build double.
Proof.
  exact (simd_return_type_is_simd_type sse2_build float double
                                       (batch double 2) eq_refl).
Defined.

(** X8.  Every type promotes with itself, to its own vector type: a
    scalar to its native batch (or to itself when it has none), a batch
    or batch_bool to itself. *)
Theorem simd_return_type_same_type cfg T :
  simd_return_type cfg T T = Some (simd_type cfg T).
Proof.
  unfold simd_return_type, simd_return_type_impl, simd_condition.
  destruct T; by rewrite ?TraitsProps.is_same_refl.
Qed.

(** X9.  A vector first operand never promotes toward a scalar, and a
    batch_bool never toward a batch: [simd_return_type<batch<A, N>, T2>]
    and [simd_return_type<batch_bool<A, N>, T2>] have no result for a
    scalar [T2], whatever the element type [A], and neither has
    [simd_return_type<batch_bool<A, N>, batch<B, M>>]. *)
Theorem simd_return_type_vector_first cfg A N T2 B M :
  scalar T2 = true ->
  simd_return_type cfg (batch A N) T2 = None /\
  simd_return_type cfg (batch_bool A N) T2 = None /\
  simd_return_type cfg (batch_bool A N) (batch B M) = None.
Proof.
  intros Hs.
  assert (Hb : forall X, simd_condition cfg (batch A N) X = is_same (batch A N) X).
  { intros X. unfold simd_condition. simpl.
    by rewrite !orb_false_r. }
  assert (Hbb : forall X,
            simd_condition cfg (batch_bool A N) X = is_same (batch_bool A N) X).
  { intros X. unfold simd_condition. simpl.
    by rewrite !orb_false_r. }
  unfold simd_return_type, simd_return_type_impl.
  repeat split.
  - destruct T2; try done; rewrite Hb; unfold is_same;
      by rewrite bool_decide_eq_false_2.
  - destruct T2; try done; rewrite Hbb; unfold is_same;
      by rewrite bool_decide_eq_false_2.
Qed.

Lemma simd_return_type_vector_first_witness :
  simd_return_type sse2_build (batch float 4) float = None /\
  simd_return_type sse2_build (batch_bool float 4) (batch float 4) = None.
Proof.
  destruct (simd_return_type_vector_first
              sse2_build float 4 float float 4 eq_refl) as (H1 & _ & H3).
  split; assumption.
Defined.

End TraitsExtra.

Module KernelExtra.
Import Kernel Spec KernelProps.

(** *** [insert] *)

Section insert.
Context {T : Type}.
Implicit Types (self : list T) (val : T).

(** The blend through the generated mask is the in-place update of lane
    [I]. *)
Lemma insert_list_insert size self val I :
  length self = size -> insert size self val I = <[I := val]> self.
Proof.
  intros Hs. apply list_eq. intros k.
  unfold insert, select, broadcast, make_batch_bool_constant, index_mask_get.
  rewrite lookup_zip_with, list_lookup_fmap, lookup_zip_with.
  destruct (decide (k < size)) as [Hk | Hk].
  - rewrite lookup_seq_lt, lookup_replicate_2 by done.
    destruct (lookup_lt_is_Some_2 self k ltac:(lia)) as [x Hx].
    rewrite Hx. simpl.
    destruct (Nat.eqb_spec k I) as [-> | Hne]; simpl.
    + by rewrite list_lookup_insert_eq by lia.
    + by rewrite list_lookup_insert_ne by done.
  - rewrite lookup_seq_ge by lia. simpl.
    symmetry. apply lookup_ge_None. rewrite length_insert. lia.
Qed.
End insert.

(** X10.  [insert(self, val, I)] keeps the width, puts [val] in lane [I]
    when [I] is a lane of the batch, and leaves every other lane as it
    was; for an index beyond the last lane the mask selects every lane
    and the result is [self]. *)
Theorem insert_lanes {T : Type} (size : nat) (self : list T) (val : T) (I : nat) :
  length self = size ->
  length (insert size self val I) = size /\
  (I < size -> insert size self val I !! I = Some val) /\
  (forall k, k <> I -> insert size self val I !! k = self !! k) /\
  (size <= I -> insert size self val I = self).
Proof.
  intros Hs. rewrite (insert_list_insert size self val I Hs).
  repeat split.
  - by rewrite length_insert.
  - intros HI. apply list_lookup_insert_eq. lia.
  - intros k Hk. by apply list_lookup_insert_ne.
  - intros HI. apply list_insert_ge. lia.
Qed.

Lemma insert_lanes_witness :
  insert 4 [0; 1; 2; 3] 9 2 !! 2 = Some 9 /\
  insert 4 [0; 1; 2; 3] 9 2 !! 3 = Some 3 /\
  insert 4 [0; 1; 2; 3] 9 4 = [0; 1; 2; 3].
Proof.
  destruct (insert_lanes 4 [0; 1; 2; 3] 9 2 eq_refl) as (_ & H1 & H2 & _).
  destruct (insert_lanes 4 [0; 1; 2; 3] 9 4 eq_refl) as (_ & _ & _ & H3).
  split; [apply H1; lia | split; [apply H2; lia | apply H3; lia]].
Defined.

(** X11.  Inserting at one lane twice keeps the second value only (so
    inserting the same value twice is inserting it once), inserting a
    lane's own value changes nothing, and inserts at two different lanes
    commute. *)
Theorem insert_algebra {T : Type} (size : nat) (self : list T)
    (v w : T) (I J : nat) :
  length self = size ->
  insert size (insert size self v I) w I = insert size self w I /\
  (self !! I = Some v -> insert size self v I = self) /\
  (I <> J ->
   insert size (insert size self v I) w J = insert size (insert size self w J) v I).
Proof.
  intros Hs.
  rewrite !(insert_list_insert size self) by done.
  rewrite !(insert_list_insert size) by (by rewrite length_insert).
  repeat split.
  - apply list_insert_insert_eq.
  - intros Hv. by apply list_insert_id.
  - intros Hne. by apply list_insert_insert_ne.
Qed.

Lemma insert_algebra_witness :
  insert 4 (insert 4 [0; 1; 2; 3] 7 1) 8 1 = insert 4 [0; 1; 2; 3] 8 1 /\
  insert 4 [0; 1; 2; 3] 1 1 = [0; 1; 2; 3] /\
  insert 4 (insert 4 [0; 1; 2; 3] 7 1) 8 3
    = insert 4 (insert 4 [0; 1; 2; 3] 8 3) 7 1.
Proof.
  destruct (insert_algebra 4 [0; 1; 2; 3] 7 8 1 3 eq_refl) as (H1 & _ & H3).
  destruct (insert_algebra 4 [0; 1; 2; 3] 1 1 1 1 eq_refl) as (_ & H2 & _).
  split; [exact H1 | split; [exact (H2 eq_refl) | apply H3; lia]].
Defined.

(** *** [extract_pair] *)



(** X13.  At every index that passes the assertion the result has [size]
    lanes, and every lane the loop has written holds the value the window
    has there: the kernel leaves lanes unwritten past the middle index
    and never writes a wrong one. *)
Theorem extract_pair_written_lanes {T : Type} (size : nat)
    (self other : list T) (i : nat) (lanes : list (option T)) :
  length self = size -> length other = size ->
  extract_pair size self other i = Some lanes ->
  length lanes = size /\
  forall k v, lanes !! k = Some (Some v) ->
    window size self other i !! k = Some (Some v).
Proof.
  intros Hs Ho Hres.
  assert (Hi : i < size).
  { unfold extract_pair in Hres.
    by destruct (Nat.ltb_spec i size). }
  assert (Hlen : length lanes = size).
  { rewrite extract_pair_unfold in Hres by done.
    injection Hres as <-. apply extract_pair_loop_length. }
  split; [done|]. intros k v Hk.
  assert (Hks : k < size).
  { rewrite <- Hlen. by eapply lookup_lt_Some. }
  pose proof (extract_pair_lane size self other i k Hs Ho Hi Hks) as Hl.
  rewrite Hres in Hl. simpl in Hl. rewrite Hl in Hk.
  unfold window. rewrite list_lookup_fmap, lookup_seq_lt by done. simpl.
  destruct (Nat.ltb_spec k (size - i)); [done|].
  destruct (Nat.leb_spec (size - Nat.min (size - i) i) k); [done|].
  discriminate.
Qed.

Lemma extract_pair_written_lanes_witness :
  length [Some 13; None; None; Some 2] = 4 /\
  window 4 [0; 1; 2; 3] [10; 11; 12; 13] 3 !! 3 = Some (Some 2).
Proof.
  destruct (extract_pair_written_lanes 4 [0; 1; 2; 3] [10; 11; 12; 13] 3
              [Some 13; None; None; Some 2] eq_refl eq_refl eq_refl)
    as [H1 H2].
  split; [exact H1 | exact (H2 3 2 eq_refl)].
Defined.

(** *** Converting loads and stores *)

Section convert.
Context {elem : Type} `{!EqDecision elem}.
Context (val : elem -> Type).
Context (convert : forall T_in T_out : elem, val T_in -> val T_out).
Context (size_of : elem -> nat).

(** The copy of [size] cells into a fresh scratch buffer of [size] cells
    leaves no cell unwritten. *)
Lemma load_aligned_slow_lanes T_in T_out (mem : list (val T_in)) :
  T_in <> T_out -> size_of T_out <= length mem ->
  load_aligned_slow val convert size_of T_in T_out mem
  = Some ((fun x => Some (convert T_in T_out x)) <$> take (size_of T_out) mem).
Proof.
  intros Hne Hlen. unfold load_aligned_slow.
  destruct (decide (T_in = T_out)); [done|]. f_equal.
  assert (Hl : length ((fun x => Some (convert T_in T_out x))
                         <$> take (size_of T_out) mem) = size_of T_out).
  { rewrite length_fmap, length_take. lia. }
  pose proof (batch_store_fresh
                ((fun x => Some (convert T_in T_out x)) <$> take (size_of T_out) mem)
                (replicate (size_of T_out) None)) as Hfresh.
  unfold batch_store_aligned in Hfresh.
  rewrite Hfresh by (by rewrite length_replicate).
  by apply batch_load_whole.
Qed.

(** The converting store overwrites the first cells of [mem]. *)
Lemma store_aligned_cells T_in T_out (mem : list (val T_out))
    (self : list (val T_in)) :
  T_in <> T_out -> length self <= length mem ->
  store_aligned val convert T_in T_out mem self
  = Some ((convert T_in T_out <$> self) ++ drop (length self) mem).
Proof.
  intros Hne Hlen. unfold store_aligned.
  destruct (decide (T_in = T_out)); [done|]. f_equal.
  rewrite <- (take_drop (length self) mem) at 1.
  apply list_inserts_0_r. rewrite length_fmap, length_take. lia.
Qed.
End convert.

(** X14.  On the slow conversion path, with at least [size] cells at
    [mem], [load_aligned] and [load_unaligned] return the same batch: lane
    [k] is the scalar conversion of cell [k], and no lane is left
    indeterminate. *)
Theorem load_slow_converts_each_cell {elem : Type} `{!EqDecision elem}
    (val : elem -> Type) (convert : forall T_in T_out, val T_in -> val T_out)
    (size_of : elem -> nat)
    (fast_cast : forall T_in T_out, list (val T_in) -> list (val T_out))
    (conversion_type : elem -> elem -> conversion)
    (T_in T_out : elem) (mem : list (val T_in)) :
  T_in <> T_out ->
  conversion_type T_in T_out = with_slow_conversion ->
  size_of T_out <= length mem ->
  load_aligned val convert size_of fast_cast conversion_type T_in T_out mem
  = Some ((fun x => Some (convert T_in T_out x)) <$> take (size_of T_out) mem) /\
  load_unaligned val convert size_of fast_cast conversion_type T_in T_out mem
  = load_aligned val convert size_of fast_cast conversion_type T_in T_out mem.
Proof.
  intros Hne Hslow Hlen. unfold load_aligned, load_unaligned, load_unaligned_slow.
  rewrite Hslow. destruct (decide (T_in = T_out)); [done|].
  split; [|done]. by apply load_aligned_slow_lanes.
Qed.

Lemma load_slow_converts_each_cell_witness :
  load_unaligned (fun _ : Traits.cpp_type => Z) (fun _ _ x => (2 * x)%Z)
                 (fun _ => 2) (fun _ _ l => l) (fun _ _ => with_slow_conversion)
                 Traits.int Traits.double [1; 2; 3]%Z
  = Some [Some 2; Some 4]%Z.
Proof.
  destruct (load_slow_converts_each_cell
              (fun _ : Traits.cpp_type => Z) (fun _ _ x => (2 * x)%Z)
              (fun _ => 2) (fun _ _ l => l) (fun _ _ => with_slow_conversion)
              Traits.int Traits.double [1; 2; 3]%Z
              ltac:(discriminate) eq_refl ltac:(simpl; lia)) as [H1 H2].
  rewrite H2. exact H1.
Defined.

(** X15.  Storing a batch of [T_in] to memory of [T_out] and loading it
    back on the slow path gives the batch back, every lane determinate,
    when the conversion to [T_out] and back is the identity on the
    batch's lanes. *)
Theorem store_then_load_slow {elem : Type} `{!EqDecision elem}
    (val : elem -> Type) (convert : forall T_in T_out, val T_in -> val T_out)
    (size_of : elem -> nat)
    (T_in T_out : elem) (mem : list (val T_out)) (self : list (val T_in)) :
  T_in <> T_out ->
  length self = size_of T_in -> length self <= length mem ->
  Forall (fun x => convert T_out T_in (convert T_in T_out x) = x) self ->
  store_aligned val convert T_in T_out mem self
    ≫= load_aligned_slow val convert size_of T_out T_in
  = Some (Some <$> self).
Proof.
  intros Hne Hs Hlen Hrt.
  rewrite store_aligned_cells by done. simpl.
  rewrite load_aligned_slow_lanes;
    [| done | rewrite length_app, length_fmap, length_drop; lia].
  f_equal. rewrite <- Hs.
  rewrite take_app_length' by (by rewrite length_fmap).
  rewrite <- list_fmap_compose.
  apply Forall_fmap_ext_1. eapply Forall_impl; [exact Hrt|].
  intros x Hx. simpl. by rewrite Hx.
Qed.

Lemma store_then_load_slow_witness :
  store_aligned (fun _ : Traits.cpp_type => Z)
                (fun a b x => if decide (b = Traits.signed_char)
                              then (x mod 256)%Z else x)
                Traits.int Traits.signed_char [0; 0; 0]%Z [7; 200]%Z
    ≫= load_aligned_slow (fun _ : Traits.cpp_type => Z)
                (fun a b x => if decide (b = Traits.signed_char)
                              then (x mod 256)%Z else x)
                (fun _ => 2) Traits.signed_char Traits.int
  = Some [Some 7; Some 200]%Z.
Proof.
  exact (store_then_load_slow
           (fun _ : Traits.cpp_type => Z)
           (fun a b x => if decide (b = Traits.signed_char)
                         then (x mod 256)%Z else x)
           (fun _ => 2) Traits.int Traits.signed_char [0; 0; 0]%Z [7; 200]%Z
           ltac:(discriminate) eq_refl ltac:(simpl; lia)
           ltac:(repeat constructor)).
Defined.

(** X16.  For [T_in] different from [T_out] and at least as many cells
    at [mem] as the batch has lanes, the converting [store_aligned] and
    [store_unaligned] write the converted lanes over the first cells and
    touch nothing else: the memory keeps its length and every cell past
    the batch keeps its value. *)
Theorem store_convert_frame {elem : Type} `{!EqDecision elem}
    (val : elem -> Type) (convert : forall T_in T_out, val T_in -> val T_out)
    (T_in T_out : elem) (mem : list (val T_out)) (self : list (val T_in)) :
  T_in <> T_out -> length self <= length mem ->
  exists mem',
    store_aligned val convert T_in T_out mem self = Some mem' /\
    store_unaligned val convert T_in T_out mem self = Some mem' /\
    length mem' = length mem /\
    take (length self) mem' = convert T_in T_out <$> self /\
    drop (length self) mem' = drop (length self) mem.
Proof.
  intros Hne Hlen. eexists. split; [by apply store_aligned_cells|].
  split.
  { unfold store_unaligned. destruct (decide (T_in = T_out)); [done|].
    by apply store_aligned_cells. }
  repeat split.
  - rewrite length_app, length_fmap, length_drop. lia.
  - by rewrite take_app_length' by (by rewrite length_fmap).
  - by rewrite drop_app_length' by (by rewrite length_fmap).
Qed.

Lemma store_convert_frame_witness :
  exists mem',
    store_aligned (fun _ : Traits.cpp_type => Z) (fun _ _ x => (x + 1)%Z)
                  Traits.int Traits.long [0; 0; 0; 9]%Z [1; 2]%Z = Some mem' /\
    drop 2 mem' = [0; 9]%Z.
Proof.
  destruct (store_convert_frame
              (fun _ : Traits.cpp_type => Z) (fun _ _ x => (x + 1)%Z)
              Traits.int Traits.long [0; 0; 0; 9]%Z [1; 2]%Z
              ltac:(discriminate) ltac:(simpl; lia))
    as (mem' & H1 & _ & _ & _ & H5).
  exists mem'. split; [exact H1 | exact H5].
Defined.

(** *** Complex store, then load *)

Section complex_store.
Context {T : Type} `{!complex_arch T}.

Lemma store_complex_cells size (dst : list T) (z : complex_batch T) :
  length (complex_low z) = size -> length (complex_high z) = size ->
  2 * size <= length dst ->
  store_complex_aligned size dst z
  = complex_low z ++ complex_high z ++ drop (2 * size) dst.
Proof.
  intros Hl Hh Hd. unfold store_complex_aligned, batch_store_aligned. simpl.
  rewrite <- (take_drop size dst) at 1.
  rewrite list_inserts_0_r by (rewrite length_take; lia).
  replace size with (length (complex_low z) + 0) at 1 by lia.
  rewrite list_inserts_app_r. f_equal.
  rewrite <- (take_drop size (drop size dst)) at 1.
  rewrite list_inserts_0_r by (rewrite length_take, length_drop; lia).
  f_equal. rewrite drop_drop. f_equal. lia.
Qed.
End complex_store.

(** X17.  With a backend whose two halves have [size] lanes each and a
    destination of at least [2 size] cells, [store_complex_aligned]
    writes the low half over the first [size] cells, the high half over
    the next [size], and leaves every later cell as it was. *)
Theorem store_complex_frame {T : Type} `{!complex_arch T}
    (size : nat) (dst : list T) (z : complex_batch T) :
  length (complex_low z) = size -> length (complex_high z) = size ->
  2 * size <= length dst ->
  store_complex_aligned size dst z
  = complex_low z ++ complex_high z ++ drop (2 * size) dst.
Proof. apply store_complex_cells. Qed.

Lemma store_complex_frame_witness :
  @store_complex_aligned Z interleaved_arch 2 [0; 0; 0; 0; 9]%Z
    {| real := [1; 3]%Z; imag := [2; 4]%Z |}
  = [1; 2; 3; 4; 9]%Z.
Proof.
  exact (@store_complex_frame Z interleaved_arch 2 [0; 0; 0; 0; 9]%Z
           {| real := [1; 3]%Z; imag := [2; 4]%Z |}
           eq_refl eq_refl ltac:(simpl; lia)).
Defined.

(** X18.  Loading what was just stored gives the complex batch back,
    for a backend whose [load_complex] recomposes a batch from its own
    low and high halves: the generic load reads as first half what the
    generic store wrote as low half. *)
Theorem complex_store_then_load {T : Type} `{!complex_arch T}
    (size : nat) (dst : list T) (z : complex_batch T) :
  length (complex_low z) = size -> length (complex_high z) = size ->
  2 * size <= length dst ->
  load_complex (complex_low z) (complex_high z) = z ->
  load_complex_aligned size (store_complex_aligned size dst z) = z.
Proof.
  intros Hl Hh Hd Hz.
  rewrite store_complex_cells by done.
  unfold load_complex_aligned, batch_load_aligned. simpl.
  subst size. rewrite drop_0, take_app_length, drop_app_length.
  by rewrite <- Hh, take_app_length.
Qed.

Lemma complex_store_then_load_witness :
  @load_complex_aligned Z interleaved_arch 2
    (@store_complex_aligned Z interleaved_arch 2 [0; 0; 0; 0; 9]%Z
       {| real := [1; 3]%Z; imag := [2; 4]%Z |})
  = {| real := [1; 3]%Z; imag := [2; 4]%Z |}.
Proof.
  exact (@complex_store_then_load Z interleaved_arch 2 [0; 0; 0; 0; 9]%Z
           {| real := [1; 3]%Z; imag := [2; 4]%Z |}
           eq_refl eq_refl ltac:(simpl; lia) eq_refl).
Defined.

End KernelExtra.
